(** * ILGPU native bridges: LLVM reflect-pass bridge and CUB primitive bridge

    A shallow embedding of
      - [Src/ILGPU.LLVM/Extensions.cpp]
      - [Src/ILGPU.Lightning.Native/Cuda/{RadixSort,RadixSortPairs,
         SegmentedRadixSort,SegmentedRadixSortPairs,Scan}.h]
      - [Src/ILGPU.Lightning.Native/{SignedVariants,UnsignedVariants,Index}.h]

    Every exported function of the two bridges is a forward into an external
    library (LLVM's legacy pass managers, CUB's device-wide primitives).  The
    external libraries are not part of the repository: a bridge function is
    embedded as a program over the external calls it issues, and the external
    library is the handler that interprets those calls over a world it owns. *)

From Stdlib Require Import ZArith Lia.
From stdpp Require Import base option list strings gmap.

Open Scope Z_scope.

(** ** Programs over external calls *)

Module Ext.
Section Prog.
(** [E]: the external calls a bridge can issue; [R]: what such a call
  returns to the bridge. *)
Context {E R : Type}.

Inductive prog (A : Type) : Type :=
  | Ret (a : A)
  | Vis (e : E) (k : R -> prog A).
Global Arguments Ret {A} a.
Global Arguments Vis {A} e k.

Fixpoint bind {A B} (p : prog A) (f : A -> prog B) : prog B :=
  match p with
  | Ret a => f a
  | Vis e k => Vis e (fun r => bind (k r) f)
  end.

(** One external call whose result is the result of the program. *)
Definition call (e : E) : prog R := Vis e Ret.

(** The first external call of a program, if it makes one. *)
Definition head_call {A} (p : prog A) : option E :=
  match p with
  | Vis e _ => Some e
  | Ret _ => None
  end.

Section Handler.
Context {W : Type} (h : E -> W -> R * W).

(** Result and final world of a program under the handler [h]. *)
Fixpoint interp {A} (p : prog A) (w : W) : A * W :=
  match p with
  | Ret a => (a, w)
  | Vis e k => let '(r, w') := h e w in interp (k r) w'
  end.

(** The external calls the program issues, in order. *)
Fixpoint calls {A} (p : prog A) (w : W) : list E :=
  match p with
  | Ret _ => []
  | Vis e k => let '(r, w') := h e w in e :: calls (k r) w'
  end.
End Handler.
End Prog.
Global Arguments prog : clear implicits.
End Ext.

#[global] Instance prog_ret {E R} : MRet (Ext.prog E R) := fun _ a => Ext.Ret a.
#[global] Instance prog_bind {E R} : MBind (Ext.prog E R) :=
  fun _ _ f p => Ext.bind p f.

(** ** Machine integers *)

Module CInt.
(** [(int)x]: conversion to a 32-bit two's-complement [int].  A value that
    fits is kept; any other is reduced modulo [2^32] into the range of
    [int]. *)
Definition to_int (x : Z) : Z := (x + 2 ^ 31) mod 2 ^ 32 - 2 ^ 31.

Definition is_int32 (x : Z) : Prop := - 2 ^ 31 <= x < 2 ^ 31.

End CInt.

(** ** The reflect-pass bridge ([Extensions.cpp]) *)

Module LLVM.
Import Ext.

(** [LLVMBool] is a C [int]; a condition [if (b)] holds for any nonzero
    value. *)
Definition LLVMBool := Z.
Definition truthy (b : LLVMBool) : bool := negb (b =? 0).

(** Opaque handles are addresses; [unwrap] is a pointer cast. *)
Definition LLVMModuleRef := Z.
Definition LLVMValueRef := Z.
Definition unwrap (p : Z) : Z := p.

(** [StringMap<int>]; [m[k] = v] is [<[k:=v]> m]. *)
Abbreviation StringMap := (gmap string).

(** The passes the bridge constructs.  A constructor records the external
    factory call and its argument. *)
Inductive FunctionPass : Type :=
  | createNVVMReflectPass (Mapping : StringMap Z).

(** The predicate of the internalize pass receives [const GlobalValue &val];
    a reference is the address of the object it aliases. *)
Inductive Pass : Type :=
  | createInternalizePass (MustPreserveGV : Z -> bool)
  | createGlobalDCEPass
  | FPass (P : FunctionPass).

Definition CreateNVVMReflectPass (ftz fm : LLVMBool) : FunctionPass :=
  let mapping : StringMap Z := ∅ in
  let mapping :=
    if truthy ftz then <["__CUDA_FTZ" := 1]> mapping else mapping in
  let mapping :=
    if truthy fm
    then <["__CUDA_PREC_SQRT" := 0]> (<["__CUDA_PREC_DIV" := 0]> mapping)
    else mapping in
  createNVVMReflectPass mapping.

(** Local pass-manager objects: [add] appends to the pass list. *)
Record FunctionPassManager := mkFPM
  { fpm_module : LLVMModuleRef; fpm_passes : list FunctionPass }.

Record PassManager := mkPM { pm_passes : list Pass }.

Definition new_FunctionPassManager (M : LLVMModuleRef) : FunctionPassManager :=
  mkFPM M [].

Definition new_PassManager : PassManager := mkPM [].

Definition fpm_add (fpm : FunctionPassManager) (P : FunctionPass) :=
  mkFPM (fpm_module fpm) (fpm_passes fpm ++ [P]).

Definition pm_add (pm : PassManager) (P : Pass) :=
  mkPM (pm_passes pm ++ [P]).

(** The calls into LLVM that execute something: the two [run] methods.
    Both return a [bool] (whether anything changed). *)
Inductive llvm_call : Type :=
  | FunctionPassManager_run (fpm : FunctionPassManager) (F : Z)
  | PassManager_run (pm : PassManager) (M : LLVMModuleRef).

(** A [run] in statement position: its [bool] is dropped. *)
Definition run_void (c : llvm_call) : prog llvm_call bool unit :=
  _ ← call c; mret tt.

Definition ILGPU_RunNVVMReflectPassOnFunction
    (module : LLVMModuleRef) (func : LLVMValueRef) (ftz fm : LLVMBool)
    : prog llvm_call bool unit :=
  let target := unwrap func in
  let fpm := new_FunctionPassManager (unwrap module) in
  let fpm := fpm_add fpm (CreateNVVMReflectPass ftz fm) in
  run_void (FunctionPassManager_run fpm target).

Definition ILGPU_RunNVVMReflectPass
    (module : LLVMModuleRef) (ftz fm : LLVMBool)
    : prog llvm_call bool unit :=
  let pm := new_PassManager in
  let pm := pm_add pm (FPass (CreateNVVMReflectPass ftz fm)) in
  run_void (PassManager_run pm (unwrap module)).

(** The lambda [[&](const GlobalValue &val) { return &val == entryPoint; }]. *)
Definition is_entry_point (entryPoint : Z) : Z -> bool :=
  fun val => bool_decide (val = entryPoint).

Definition ILGPU_PreparePTXModule
    (module : LLVMModuleRef) (entry : LLVMValueRef) (ftz fm : LLVMBool)
    : prog llvm_call bool unit :=
  let entryPoint := unwrap entry in
  let pm := new_PassManager in
  let pm := pm_add pm (createInternalizePass (is_entry_point entryPoint)) in
  let pm := pm_add pm createGlobalDCEPass in
  let pm := pm_add pm (FPass (CreateNVVMReflectPass ftz fm)) in
  run_void (PassManager_run pm (unwrap module)).

(** *** The external side

    Global values live in LLVM's heap, keyed by address.  The bridge never
    looks inside one; LLVM does.  What a pass does to a function body or to
    a module is LLVM's: it is a parameter of the handler. *)
Section Handler.
Context {Body : Type}.

Record GlobalValue := mkGV { gv_name : string; gv_body : Body }.

(** [FunctionPass::runOnFunction(Function &F)]: a function pass rewrites
    the body of the function it is run on. *)
Variable runOnFunction : FunctionPass -> Body -> Body.

(** A pass run by the module-level manager over the module [M]. *)
Variable runOnModule : Pass -> LLVMModuleRef -> gmap Z GlobalValue -> gmap Z GlobalValue.

Definition run_function_passes (Ps : list FunctionPass) (f : GlobalValue) : GlobalValue :=
  mkGV (gv_name f) (foldl (fun b P => runOnFunction P b) (gv_body f) Ps).

(** [legacy::FunctionPassManager::run(Function &F)]: the passes, in the
    order added, on the function at [F].  LLVM defines nothing for a handle
    that is not the address of a function; the heap is then left as it
    is. *)
Definition FPM_run (fpm : FunctionPassManager) (F : Z)
    (h : gmap Z GlobalValue) : gmap Z GlobalValue :=
  alter (run_function_passes (fpm_passes fpm)) F h.

(** [legacy::PassManager::run(Module &M)]: the passes, in the order added,
    on [M]. *)
Definition PM_run (pm : PassManager) (M : LLVMModuleRef)
    (h : gmap Z GlobalValue) : gmap Z GlobalValue :=
  foldl (fun h P => runOnModule P M h) h (pm_passes pm).

(** The handler of the two [run] calls.  The [bool] either returns is
    whether the heap changed; the bridge drops it. *)
Definition llvm (changed : gmap Z GlobalValue -> gmap Z GlobalValue -> bool)
    (c : llvm_call) (h : gmap Z GlobalValue) : bool * gmap Z GlobalValue :=
  match c with
  | FunctionPassManager_run fpm F =>
      let h' := FPM_run fpm F h in (changed h h', h')
  | PassManager_run pm M =>
      let h' := PM_run pm M h in (changed h h', h')
  end.
End Handler.
Global Arguments GlobalValue : clear implicits.
Global Arguments mkGV {Body} gv_name gv_body.

(** *** The mapping, in the words of the specification

    [flag_ftz] adds the one entry [__CUDA_FTZ = 1]; [flag_precise_div_sqrt]
    adds the two entries [__CUDA_PREC_DIV = 0] and [__CUDA_PREC_SQRT = 0];
    nothing else is in the mapping.  A flag is set when it is nonzero. *)
Definition spec_entries (flag_ftz flag_precise_div_sqrt : LLVMBool)
    : list (string * Z) :=
  (if decide (flag_ftz = 0) then [] else [("__CUDA_FTZ"%string, 1)]) ++
  (if decide (flag_precise_div_sqrt = 0) then []
   else [("__CUDA_PREC_DIV"%string, 0); ("__CUDA_PREC_SQRT"%string, 0)]).

Definition spec_mapping (flag_ftz flag_precise_div_sqrt : LLVMBool)
    : StringMap Z :=
  list_to_map (spec_entries flag_ftz flag_precise_div_sqrt).

(** The mappings of the reflect passes an external call carries. *)
Definition reflect_mappings_of_pass (P : Pass) : list (StringMap Z) :=
  match P with
  | FPass (createNVVMReflectPass m) => [m]
  | _ => []
  end.

Definition reflect_mappings (c : llvm_call) : list (StringMap Z) :=
  match c with
  | FunctionPassManager_run fpm _ =>
      map (fun '(createNVVMReflectPass m) => m) (fpm_passes fpm)
  | PassManager_run pm _ =>
      concat (map reflect_mappings_of_pass (pm_passes pm))
  end.
End LLVM.

(** ** The primitive-operation bridge ([Cuda/*.h]) *)

Module Lightning.
Import Ext.

(** [cudaError_t] is CUB's status code; the bridge never inspects it. *)
Definition cudaError_t := Z.

(** The element types of [SignedVariants.h] and [UnsignedVariants.h]. *)
Inductive ctype : Type :=
  | int8_t | int16_t | int32_t | int64_t
  | uint8_t | uint16_t | uint32_t | uint64_t.

(** [Index.h]: [typedef int32_t Index;] *)
Definition Index : ctype := int32_t.

(** What a pointer parameter points to: [void *], [cType *], [int *]. *)
Inductive pointee : Type :=
  | Void
  | Elem (t : ctype)
  | Int.

(** The actual arguments of a call into CUB.  Pointers, stream handles and
    integers are passed by value.  [SizeRef p] is the lvalue [*p] of a
    [size_t *p] bound to CUB's [size_t &temp_storage_bytes]: CUB reads and
    writes the cell at [p]; the bridge itself neither loads nor stores it. *)
Inductive arg : Type :=
  | Ptr (t : pointee) (p : Z)
  | SizeRef (p : Z)
  | IntArg (i : Z)
  | Stream (s : Z).

(** The raw machine value an argument carries. *)
Definition arg_value (a : arg) : Z :=
  match a with
  | Ptr _ p => p
  | SizeRef p => p
  | IntArg i => i
  | Stream s => s
  end.

(** A call [cub_class::cub_method(cub_args...)]. *)
Record cub_call := CubCall
  { cub_class : string; cub_method : string; cub_args : list arg }.

(** An exported function: its name after token pasting, and its body as a
    function of its parameters in the order of the signature. *)
Record export (Sig : Type) := Export { exp_name : string; exp_body : Sig }.
Global Arguments Export {Sig} exp_name exp_body.
Global Arguments exp_name {Sig} e.
Global Arguments exp_body {Sig} e.

Abbreviation status := (prog cub_call cudaError_t cudaError_t).

(** [RadixSort.h] *)
Module RadixSort.
Definition MAKE_RADIXSORT_GEN (prefix variant cubName typeName : string)
    (cType : ctype)
    : export (Z -> Z -> Z -> Z -> Z -> Z -> Z -> Z -> status) :=
  Export ("Cuda" +:+ prefix +:+ variant +:+ "RadixSort" +:+ typeName)
    (fun tempStorage tempStorageSize source target
         numElements beginBit endBit stream =>
       call (CubCall "cub::DeviceRadixSort" (cubName +:+ prefix)
         [ Ptr Void tempStorage;
           SizeRef tempStorageSize;
           Ptr (Elem cType) source;
           Ptr (Elem cType) target;
           IntArg (CInt.to_int numElements);
           IntArg (CInt.to_int beginBit);
           IntArg (CInt.to_int endBit);
           Stream stream ])).

Definition MAKE_RADIXSORT (variant cubName typeName : string) (cType : ctype) :=
  [ MAKE_RADIXSORT_GEN EmptyString variant cubName typeName cType;
    MAKE_RADIXSORT_GEN "Descending" variant cubName typeName cType ].
End RadixSort.

(** [RadixSortPairs.h] *)
Module RadixSortPairs.
Definition MAKE_RADIXSORT_GEN (prefix variant cubName typeName : string)
    (cType : ctype)
    : export (Z -> Z -> Z -> Z -> Z -> Z -> Z -> Z -> Z -> Z -> status) :=
  Export ("Cuda" +:+ prefix +:+ variant +:+ "RadixSort" +:+ typeName
            +:+ "IndexPairs")
    (fun tempStorage tempStorageSize source target valuesSource valuesTarget
         numElements beginBit endBit stream =>
       call (CubCall "cub::DeviceRadixSort" (cubName +:+ prefix)
         [ Ptr Void tempStorage;
           SizeRef tempStorageSize;
           Ptr (Elem cType) source;
           Ptr (Elem cType) target;
           Ptr (Elem Index) valuesSource;
           Ptr (Elem Index) valuesTarget;
           IntArg (CInt.to_int numElements);
           IntArg (CInt.to_int beginBit);
           IntArg (CInt.to_int endBit);
           Stream stream ])).

Definition MAKE_RADIXSORT (variant cubName typeName : string) (cType : ctype) :=
  [ MAKE_RADIXSORT_GEN EmptyString variant cubName typeName cType;
    MAKE_RADIXSORT_GEN "Descending" variant cubName typeName cType ].
End RadixSortPairs.

(** [SegmentedRadixSort.h] *)
Module SegmentedRadixSort.
Definition MAKE_SEGMENTED_RADIXSORT_GEN
    (prefix postfix variant cubName typeName : string) (cType : ctype)
    : export (Z -> Z -> Z -> Z -> Z -> Z -> Z -> Z -> Z -> Z -> Z -> status) :=
  Export ("Cuda" +:+ postfix +:+ prefix +:+ variant +:+ "RadixSort"
            +:+ typeName)
    (fun tempStorage tempStorageSize source target
         numElements beginOffsets endOffsets numSegments
         beginBit endBit stream =>
       call (CubCall "cub::DeviceSegmentedRadixSort" (cubName +:+ prefix)
         [ Ptr Void tempStorage;
           SizeRef tempStorageSize;
           Ptr (Elem cType) source;
           Ptr (Elem cType) target;
           IntArg (CInt.to_int numElements);
           IntArg (CInt.to_int numSegments);
           Ptr Int beginOffsets;
           Ptr Int endOffsets;
           IntArg (CInt.to_int beginBit);
           IntArg (CInt.to_int endBit);
           Stream stream ])).

Definition MAKE_SEGMENTED_RADIXSORT (variant cubName typeName : string)
    (cType : ctype) :=
  [ MAKE_SEGMENTED_RADIXSORT_GEN EmptyString "Segmented" variant cubName typeName cType;
    MAKE_SEGMENTED_RADIXSORT_GEN "Descending" "Segmented" variant cubName
      typeName cType ].
End SegmentedRadixSort.

(** [SegmentedRadixSortPairs.h] *)
Module SegmentedRadixSortPairs.
Definition MAKE_SEGMENTED_RADIXSORT_GEN
    (prefix postfix variant cubName typeName : string) (cType : ctype)
    : export (Z -> Z -> Z -> Z -> Z -> Z -> Z -> Z -> Z -> Z -> Z -> Z -> Z
              -> status) :=
  Export ("Cuda" +:+ postfix +:+ prefix +:+ variant +:+ "RadixSort"
            +:+ typeName +:+ "IndexPairs")
    (fun tempStorage tempStorageSize source target valuesSource valuesTarget
         numElements beginOffsets endOffsets numSegments
         beginBit endBit stream =>
       call (CubCall "cub::DeviceSegmentedRadixSort" (cubName +:+ prefix)
         [ Ptr Void tempStorage;
           SizeRef tempStorageSize;
           Ptr (Elem cType) source;
           Ptr (Elem cType) target;
           Ptr (Elem Index) valuesSource;
           Ptr (Elem Index) valuesTarget;
           IntArg (CInt.to_int numElements);
           IntArg (CInt.to_int numSegments);
           Ptr Int beginOffsets;
           Ptr Int endOffsets;
           IntArg (CInt.to_int beginBit);
           IntArg (CInt.to_int endBit);
           Stream stream ])).

Definition MAKE_SEGMENTED_RADIXSORT (variant cubName typeName : string)
    (cType : ctype) :=
  [ MAKE_SEGMENTED_RADIXSORT_GEN EmptyString "Segmented" variant cubName typeName cType;
    MAKE_SEGMENTED_RADIXSORT_GEN "Descending" "Segmented" variant cubName
      typeName cType ].
End SegmentedRadixSortPairs.

(** [Scan.h] *)
Module Scan.
Definition MAKE_SCAN (variant typeName : string) (cType : ctype)
    : export (Z -> Z -> Z -> Z -> Z -> Z -> status) :=
  Export ("Cuda" +:+ variant +:+ "Scan" +:+ typeName)
    (fun tempStorage tempStorageSize source target numElements stream =>
       call (CubCall "cub::DeviceScan" (variant +:+ "Sum")
         [ Ptr Void tempStorage;
           SizeRef tempStorageSize;
           Ptr (Elem cType) source;
           Ptr (Elem cType) target;
           IntArg (CInt.to_int numElements);
           Stream stream ])).
End Scan.

(** [SignedVariants.h], [UnsignedVariants.h]: one expansion of the
    specialization macro per element type. *)
Definition SignedVariants {X} (SPECIALIZATION_SIGNED : string -> ctype -> list X)
    : list X :=
  SPECIALIZATION_SIGNED "Int8" int8_t ++
  SPECIALIZATION_SIGNED "Int16" int16_t ++
  SPECIALIZATION_SIGNED "Int32" int32_t ++
  SPECIALIZATION_SIGNED "Int64" int64_t.

Definition UnsignedVariants {X}
    (SPECIALIZATION_UNSIGNED : string -> ctype -> list X) : list X :=
  SPECIALIZATION_UNSIGNED "UInt8" uint8_t ++
  SPECIALIZATION_UNSIGNED "UInt16" uint16_t ++
  SPECIALIZATION_UNSIGNED "UInt32" uint32_t ++
  SPECIALIZATION_UNSIGNED "UInt64" uint64_t.

(** The null pointer. *)
Definition null : Z := 0.

(** A call of each kind of export, with the macro arguments that generate
    the export and the actuals in the order of its signature. *)
Section Invocations.
Variables prefix variant cubName typeName : string.
Variable cType : ctype.
Variables tempStorage tempStorageSize source target : Z.
Variables valuesSource valuesTarget : Z.
Variables numElements beginOffsets endOffsets numSegments : Z.
Variables beginBit endBit stream : Z.

Definition sort_keys : status :=
  exp_body (RadixSort.MAKE_RADIXSORT_GEN prefix variant cubName typeName cType)
    tempStorage tempStorageSize source target
    numElements beginBit endBit stream.

Definition sort_pairs : status :=
  exp_body
    (RadixSortPairs.MAKE_RADIXSORT_GEN prefix variant cubName typeName cType)
    tempStorage tempStorageSize source target valuesSource valuesTarget
    numElements beginBit endBit stream.

Definition segmented_sort_keys : status :=
  exp_body
    (SegmentedRadixSort.MAKE_SEGMENTED_RADIXSORT_GEN prefix "Segmented"
       variant cubName typeName cType)
    tempStorage tempStorageSize source target
    numElements beginOffsets endOffsets numSegments
    beginBit endBit stream.

Definition segmented_sort_pairs : status :=
  exp_body
    (SegmentedRadixSortPairs.MAKE_SEGMENTED_RADIXSORT_GEN prefix "Segmented"
       variant cubName typeName cType)
    tempStorage tempStorageSize source target valuesSource valuesTarget
    numElements beginOffsets endOffsets numSegments
    beginBit endBit stream.

Definition scan : status :=
  exp_body (Scan.MAKE_SCAN variant typeName cType)
    tempStorage tempStorageSize source target numElements stream.
End Invocations.

(** The actuals of a call in the order of a list of positions: position
    [i] of the result is position [order !! i] of [actuals]. *)
Definition reorder (order : list nat) (actuals : list Z) : list Z :=
  omap (fun i => actuals !! i) order.

(** A program that is exactly one call into CUB whose status it returns,
    under every handler and from every world. *)
Definition returns_status_of (p : status) (c : cub_call) : Prop :=
  p = call c /\
  forall (W : Type) (cub : cub_call -> W -> cudaError_t * W) (w : W),
    calls cub p w = [c] /\ interp cub p w = cub c w.
End Lightning.

(** * Properties *)

(** ** Programs and their handlers *)

Section ProgFacts.
Import Ext.
Context {E R W : Type} (h : E -> W -> R * W).

Lemma interp_call (e : E) (w : W) : interp h (call e) w = h e w.
Proof. unfold call; simpl. by destruct (h e w). Qed.

Lemma calls_call (e : E) (w : W) : calls h (call e) w = [e].
Proof. unfold call; simpl. by destruct (h e w). Qed.

Lemma interp_bind {A B} (p : prog E R A) (f : A -> prog E R B) (w : W) :
  interp h (bind p f) w = let '(a, w') := interp h p w in interp h (f a) w'.
Proof.
  revert w; induction p as [a | e k IH]; intros w; simpl; [done |].
  destruct (h e w) as [r w']. apply IH.
Qed.

Lemma calls_bind {A B} (p : prog E R A) (f : A -> prog E R B) (w : W) :
  calls h (bind p f) w =
  calls h p w ++ (let '(a, w') := interp h p w in calls h (f a) w').
Proof.
  revert w; induction p as [a | e k IH]; intros w; simpl; [done |].
  destruct (h e w) as [r w']. by rewrite IH.
Qed.

End ProgFacts.

(** ** Conversions to [int] *)

Section CIntFacts.
Import CInt.

Lemma to_int_range x : is_int32 (to_int x).
Proof.
  unfold is_int32, to_int.
  pose proof (Z.mod_pos_bound (x + 2 ^ 31) (2 ^ 32)). lia.
Qed.

Lemma to_int_id x : is_int32 x -> to_int x = x.
Proof.
  unfold is_int32, to_int; intros Hx.
  rewrite Z.mod_small by lia. lia.
Qed.

Lemma to_int_wrap x : 2 ^ 31 <= x < 2 ^ 32 -> to_int x = x - 2 ^ 32.
Proof.
  unfold to_int; intros Hx.
  replace (x + 2 ^ 31) with ((x - 2 ^ 31) + 1 * 2 ^ 32) by lia.
  rewrite Z.mod_add by lia. rewrite Z.mod_small by lia. lia.
Qed.
End CIntFacts.

(** ** The reflect-pass bridge *)

Section ReflectPassBridge.
Import Ext LLVM.

Lemma truthy_nonzero (b : LLVMBool) : truthy b = bool_decide (b ≠ 0).
Proof.
  unfold truthy. case_bool_decide as Hb.
  - by apply negb_true_iff, Z.eqb_neq.
  - apply negb_false_iff, Z.eqb_eq. by destruct (decide (b = 0)).
Qed.

(** What the code builds is the mapping the specification describes. *)
Lemma CreateNVVMReflectPass_mapping (ftz fm : LLVMBool) :
  CreateNVVMReflectPass ftz fm = createNVVMReflectPass (spec_mapping ftz fm).
Proof.
  unfold CreateNVVMReflectPass, spec_mapping, spec_entries.
  rewrite !truthy_nonzero. f_equal.
  do 2 case_bool_decide; do 2 case_decide; done.
Qed.

(** The entries of the mapping, key by key. *)
Lemma spec_mapping_lookup (ftz fm : LLVMBool) (k : string) :
  spec_mapping ftz fm !! k =
  if decide (k = "__CUDA_FTZ"%string)
  then (if decide (ftz = 0) then None else Some 1)
  else if decide (k = "__CUDA_PREC_DIV"%string ∨ k = "__CUDA_PREC_SQRT"%string)
  then (if decide (fm = 0) then None else Some 0)
  else None.
Proof.
  unfold spec_mapping, spec_entries.
  destruct (decide (k = "__CUDA_FTZ"%string)) as [-> | Hk1].
  { destruct (decide (ftz = 0)), (decide (fm = 0)); done. }
  destruct (decide (k = "__CUDA_PREC_DIV"%string)) as [-> | Hk2].
  { destruct (decide (ftz = 0)), (decide (fm = 0)); done. }
  destruct (decide (k = "__CUDA_PREC_SQRT"%string)) as [-> | Hk3].
  { destruct (decide (ftz = 0)), (decide (fm = 0)); done. }
  destruct (decide (_ ∨ _)) as [[? | ?] | _]; [done.. |].
  destruct (decide (ftz = 0)), (decide (fm = 0)); simpl;
    by rewrite ?lookup_insert_ne, lookup_empty by done.
Qed.

Lemma spec_mapping_size (ftz fm : LLVMBool) :
  size (spec_mapping ftz fm) =
  ((if decide (ftz = 0%Z) then 0 else 1) +
   (if decide (fm = 0%Z) then 0 else 2))%nat.
Proof.
  unfold spec_mapping, spec_entries.
  destruct (decide (ftz = 0)), (decide (fm = 0)); done.
Qed.

(** C1. Each of the three exported functions hands exactly one reflect pass
    to LLVM, and the substitution mapping of that pass is the one the two
    flags determine: a nonzero [ftz] contributes [__CUDA_FTZ = 1], a nonzero
    [fm] contributes [__CUDA_PREC_DIV = 0] and [__CUDA_PREC_SQRT = 0], and
    nothing else is in it (so it is empty when both flags are zero). *)
Theorem reflect_mapping_determined_by_flags
    (module func entry : Z) (ftz fm : LLVMBool) :
  CreateNVVMReflectPass ftz fm = createNVVMReflectPass (spec_mapping ftz fm) /\
  reflect_mappings <$>
    head_call (ILGPU_RunNVVMReflectPassOnFunction module func ftz fm)
    = Some [spec_mapping ftz fm] /\
  reflect_mappings <$> head_call (ILGPU_RunNVVMReflectPass module ftz fm)
    = Some [spec_mapping ftz fm] /\
  reflect_mappings <$> head_call (ILGPU_PreparePTXModule module entry ftz fm)
    = Some [spec_mapping ftz fm] /\
  (forall k : string,
     spec_mapping ftz fm !! k =
     if decide (k = "__CUDA_FTZ"%string)
     then (if decide (ftz = 0) then None else Some 1)
     else if decide (k = "__CUDA_PREC_DIV"%string
                     ∨ k = "__CUDA_PREC_SQRT"%string)
     then (if decide (fm = 0) then None else Some 0)
     else None) /\
  spec_mapping 0 0 = ∅.
Proof.
  split; [apply CreateNVVMReflectPass_mapping |].
  unfold ILGPU_RunNVVMReflectPassOnFunction, ILGPU_RunNVVMReflectPass,
    ILGPU_PreparePTXModule.
  rewrite !CreateNVVMReflectPass_mapping.
  repeat split; try done. apply spec_mapping_lookup.
Qed.
End ReflectPassBridge.

(** ** The pass pipelines, run by LLVM *)

Section PassPipelines.
Import Ext LLVM.
Context {Body : Type}.
Variable runOnFunction : FunctionPass -> Body -> Body.
Variable runOnModule :
  Pass -> LLVMModuleRef -> gmap Z (GlobalValue Body) -> gmap Z (GlobalValue Body).
Variable changed : gmap Z (GlobalValue Body) -> gmap Z (GlobalValue Body) -> bool.

Lemma calls_run_void (c : llvm_call) (h : gmap Z (GlobalValue Body)) :
  calls (llvm runOnFunction runOnModule changed) (run_void c) h = [c].
Proof.
  unfold run_void, mbind, prog_bind. rewrite calls_bind, calls_call.
  rewrite interp_call. by destruct (llvm _ _ _ c h).
Qed.

Lemma interp_run_void (c : llvm_call) (h : gmap Z (GlobalValue Body)) :
  interp (llvm runOnFunction runOnModule changed) (run_void c) h =
  (tt, (llvm runOnFunction runOnModule changed c h).2).
Proof.
  unfold run_void, mbind, prog_bind. rewrite interp_bind, interp_call.
  by destruct (llvm _ _ _ c h).
Qed.

(** C2. [ILGPU_PreparePTXModule] makes one call into LLVM: it runs, on the
    module, a pass manager holding exactly three passes in this order:
    internalization keeping the entry point, global dead-code elimination,
    the reflect pass of the two flags.  The module that results is the one
    the three passes produce when applied in that order. *)
Theorem prepare_ptx_module_pipeline
    (module entry : Z) (ftz fm : LLVMBool) (h : gmap Z (GlobalValue Body)) :
  let p := ILGPU_PreparePTXModule module entry ftz fm in
  let internalize := createInternalizePass (is_entry_point entry) in
  let dce := createGlobalDCEPass in
  let reflect := FPass (createNVVMReflectPass (spec_mapping ftz fm)) in
  calls (llvm runOnFunction runOnModule changed) p h =
    [PassManager_run (mkPM [internalize; dce; reflect]) module] /\
  (interp (llvm runOnFunction runOnModule changed) p h).2 =
    runOnModule reflect module
      (runOnModule dce module (runOnModule internalize module h)).
Proof.
  intros p internalize dce reflect. subst p.
  unfold ILGPU_PreparePTXModule.
  rewrite calls_run_void, interp_run_void, CreateNVVMReflectPass_mapping.
  done.
Qed.

(** C3. The predicate [ILGPU_PreparePTXModule] gives to the internalize pass
    holds of a global value exactly when its address is the entry-point
    handle.  A global at another address is not kept, whatever its name: in
    particular not when it has the name of the entry point. *)
Theorem internalize_predicate_is_identity
    (module entry : Z) (ftz fm : LLVMBool) :
  head_call (ILGPU_PreparePTXModule module entry ftz fm) =
    Some (PassManager_run
            (mkPM [ createInternalizePass (is_entry_point entry);
                    createGlobalDCEPass;
                    FPass (CreateNVVMReflectPass ftz fm) ]) module) /\
  (forall val : Z, is_entry_point entry val = true <-> val = entry) /\
  (forall (h : gmap Z (GlobalValue Body)) (val : Z) (e g : GlobalValue Body),
     h !! entry = Some e -> h !! val = Some g ->
     gv_name g = gv_name e -> val ≠ entry ->
     is_entry_point entry val = false).
Proof.
  split; [done |]. split.
  - intros val. unfold is_entry_point. apply bool_decide_eq_true.
  - intros h val e g _ _ _ Hne. unfold is_entry_point.
    by apply bool_decide_eq_false.
Qed.

(** C7. [ILGPU_RunNVVMReflectPassOnFunction] makes one call into LLVM: a
    function pass manager holding the reflect pass alone, run on the function
    [func].  It returns nothing.  Afterwards the function at [func] has the
    body the pass made of it, under its old name; every other global value is
    as it was, and no global value appeared or disappeared. *)
Theorem run_on_function_frame
    (module func : Z) (ftz fm : LLVMBool) (h : gmap Z (GlobalValue Body)) :
  let p := ILGPU_RunNVVMReflectPassOnFunction module func ftz fm in
  let P := CreateNVVMReflectPass ftz fm in
  let h' := (interp (llvm runOnFunction runOnModule changed) p h).2 in
  calls (llvm runOnFunction runOnModule changed) p h =
    [FunctionPassManager_run (mkFPM module [P]) func] /\
  (interp (llvm runOnFunction runOnModule changed) p h).1 = tt /\
  h' !! func =
    (fun f => mkGV (gv_name f) (runOnFunction P (gv_body f))) <$> h !! func /\
  (forall g : Z, g ≠ func -> h' !! g = h !! g) /\
  dom h' = dom h.
Proof.
  intros p P h'. subst p h'.
  unfold ILGPU_RunNVVMReflectPassOnFunction.
  rewrite calls_run_void, interp_run_void. fold P. simpl.
  unfold FPM_run; simpl.
  split; [done |]. split; [done |]. split; [| split].
  - by rewrite lookup_alter_eq.
  - intros g Hg. by rewrite lookup_alter_ne.
  - by rewrite dom_alter_L.
Qed.
End PassPipelines.

(** The predicate at two same-named globals at the addresses 16 and 32, the
    first being the entry point. *)
Lemma internalize_predicate_is_identity_witness :
  LLVM.is_entry_point 16 16 = true /\ LLVM.is_entry_point 16 32 = false.
Proof.
  pose proof (internalize_predicate_is_identity (Body := nat) 8 16 1 0)
    as (_ & Hiff & Hname).
  split.
  - by apply Hiff.
  - apply (Hname {[ 16 := LLVM.mkGV "kernel" 0%nat;
                    32 := LLVM.mkGV "kernel" 1%nat ]}
             32 (LLVM.mkGV "kernel" 0%nat) (LLVM.mkGV "kernel" 1%nat));
      done.
Defined.

(** A module of a kernel at 16 and a helper at 32, the pass run on the
    kernel: the helper is as it was. *)
Lemma run_on_function_frame_witness :
  let h : gmap Z (LLVM.GlobalValue nat) :=
    {[ 16 := LLVM.mkGV "kernel" 0%nat; 32 := LLVM.mkGV "helper" 5%nat ]} in
  (Ext.interp (LLVM.llvm (fun _ b => S b) (fun _ _ h => h) (fun _ _ => true))
     (LLVM.ILGPU_RunNVVMReflectPassOnFunction 8 16 1 0) h).2 !! 32
  = Some (LLVM.mkGV "helper" 5%nat).
Proof.
  intros h.
  pose proof (run_on_function_frame (fun _ b => S b) (fun _ _ h => h)
                (fun _ _ => true) 8 16 1 0 h) as (_ & _ & _ & Hframe & _).
  rewrite Hframe; done.
Defined.

(** ** The primitive-operation bridge *)

Section PrimitiveBridge.
Import Ext Lightning.

Lemma append_empty_r (s : string) : s +:+ EmptyString = s.
Proof.
  induction s as [| a s IH]; [done |].
  change (String a (s +:+ EmptyString) = String a s). by rewrite IH.
Qed.

Lemma returns_status_of_call (c : cub_call) : returns_status_of (call c) c.
Proof.
  split; [done |]. intros W cub w.
  by rewrite calls_call, interp_call.
Qed.

(** The two variant tables expand a specialization once per element type,
    and between them reach each of the eight element types. *)
Lemma variants_cover_all_types (t : ctype) :
  t ∈ SignedVariants (fun _ t => [t]) ++ UnsignedVariants (fun _ t => [t]).
Proof. destruct t; set_solver. Qed.

Lemma variants_expand_both_orderings (variant cubName : string) :
  exp_name <$>
    (SignedVariants (RadixSort.MAKE_RADIXSORT variant cubName) ++
     UnsignedVariants (RadixSort.MAKE_RADIXSORT variant cubName))
  = (fun '(p, t) => "Cuda" +:+ p +:+ variant +:+ "RadixSort" +:+ t) <$>
      (t ← ["Int8"; "Int16"; "Int32"; "Int64";
            "UInt8"; "UInt16"; "UInt32"; "UInt64"];
       [(EmptyString, t); ("Descending"%string, t)]).
Proof. done. Qed.

Variables prefix variant cubName typeName : string.
Variable cType : ctype.
Variables tempStorage tempStorageSize source target : Z.
Variables valuesSource valuesTarget : Z.
Variables numElements beginOffsets endOffsets numSegments : Z.
Variables beginBit endBit stream : Z.

(** C4. Every export of the five kinds (sort, sort with index payload,
    segmented sort, segmented sort with index payload, scan), for every
    element type, ordering prefix and actuals, is one call into CUB and
    nothing else: under every behaviour of CUB and from every state, the
    calls it makes are that single call, and its status and the state it
    leaves are exactly those of that call. *)
Theorem exports_return_status_unmodified :
  (exists c, returns_status_of
     (sort_keys prefix variant cubName typeName cType
        tempStorage tempStorageSize source target
        numElements beginBit endBit stream) c) /\
  (exists c, returns_status_of
     (sort_pairs prefix variant cubName typeName cType
        tempStorage tempStorageSize source target valuesSource valuesTarget
        numElements beginBit endBit stream) c) /\
  (exists c, returns_status_of
     (segmented_sort_keys prefix variant cubName typeName cType
        tempStorage tempStorageSize source target
        numElements beginOffsets endOffsets numSegments
        beginBit endBit stream) c) /\
  (exists c, returns_status_of
     (segmented_sort_pairs prefix variant cubName typeName cType
        tempStorage tempStorageSize source target valuesSource valuesTarget
        numElements beginOffsets endOffsets numSegments
        beginBit endBit stream) c) /\
  (exists c, returns_status_of
     (scan variant typeName cType
        tempStorage tempStorageSize source target numElements stream) c).
Proof.
  repeat split; eexists; apply returns_status_of_call.
Qed.

(** C6. For each of the four sort kinds and every element type, the
    descending export and the ascending export of one expansion call the
    same CUB class with the same list of arguments; the ascending one calls
    the method [cubName], the descending one the method
    [cubName ++ "Descending"]. *)
Theorem descending_forwards_same_arguments :
  let asc_desc (f : string -> status) := 
    (head_call (f EmptyString), head_call (f "Descending")) in
  let same_but_method (cs : option cub_call * option cub_call) :=
    exists cls args,
      cs.1 = Some (CubCall cls cubName args) /\
      cs.2 = Some (CubCall cls (cubName +:+ "Descending") args) in
  same_but_method (asc_desc (fun prefix =>
    sort_keys prefix variant cubName typeName cType
      tempStorage tempStorageSize source target
      numElements beginBit endBit stream)) /\
  same_but_method (asc_desc (fun prefix =>
    sort_pairs prefix variant cubName typeName cType
      tempStorage tempStorageSize source target valuesSource valuesTarget
      numElements beginBit endBit stream)) /\
  same_but_method (asc_desc (fun prefix =>
    segmented_sort_keys prefix variant cubName typeName cType
      tempStorage tempStorageSize source target
      numElements beginOffsets endOffsets numSegments
      beginBit endBit stream)) /\
  same_but_method (asc_desc (fun prefix =>
    segmented_sort_pairs prefix variant cubName typeName cType
      tempStorage tempStorageSize source target valuesSource valuesTarget
      numElements beginOffsets endOffsets numSegments
      beginBit endBit stream)) /\
  RadixSort.MAKE_RADIXSORT variant cubName typeName cType =
    [ RadixSort.MAKE_RADIXSORT_GEN EmptyString variant cubName typeName cType;
      RadixSort.MAKE_RADIXSORT_GEN "Descending" variant cubName typeName cType ] /\
  SegmentedRadixSortPairs.MAKE_SEGMENTED_RADIXSORT variant cubName typeName cType =
    [ SegmentedRadixSortPairs.MAKE_SEGMENTED_RADIXSORT_GEN
        EmptyString "Segmented" variant cubName typeName cType;
      SegmentedRadixSortPairs.MAKE_SEGMENTED_RADIXSORT_GEN
        "Descending" "Segmented" variant cubName typeName cType ].
Proof.
  intros asc_desc same_but_method. subst asc_desc same_but_method.
  unfold sort_keys, sort_pairs, segmented_sort_keys, segmented_sort_pairs.
  cbn. rewrite !append_empty_r.
  repeat split; by do 2 eexists.
Qed.
End PrimitiveBridge.

(** ** What reaches CUB *)

Section ForwardedArguments.
Import Ext Lightning.
Variables prefix variant cubName typeName : string.
Variable cType : ctype.
Variables tempStorage tempStorageSize source target : Z.
Variables valuesSource valuesTarget : Z.
Variables numElements beginOffsets endOffsets numSegments : Z.
Variables beginBit endBit stream : Z.

(** C10. A segmented-sort export takes [numElements], [beginOffsets],
    [endOffsets], [numSegments] in this order and passes CUB [numElements],
    [numSegments], [beginOffsets], [endOffsets]: the arguments of the call
    are the actuals of the export at the positions 0-4, 7, 5, 6, 8-10 (with
    index payload: 0-6, 9, 7, 8, 10-12), each with the value the caller
    gave. *)
Theorem segmented_sort_argument_order :
  CInt.is_int32 numElements -> CInt.is_int32 numSegments ->
  CInt.is_int32 beginBit -> CInt.is_int32 endBit ->
  let keys :=
    segmented_sort_keys prefix variant cubName typeName cType
      tempStorage tempStorageSize source target
      numElements beginOffsets endOffsets numSegments
      beginBit endBit stream in
  let pairs :=
    segmented_sort_pairs prefix variant cubName typeName cType
      tempStorage tempStorageSize source target valuesSource valuesTarget
      numElements beginOffsets endOffsets numSegments
      beginBit endBit stream in
  head_call keys =
    Some (CubCall "cub::DeviceSegmentedRadixSort" (cubName +:+ prefix)
      [ Ptr Void tempStorage; SizeRef tempStorageSize;
        Ptr (Elem cType) source; Ptr (Elem cType) target;
        IntArg numElements; IntArg numSegments;
        Ptr Int beginOffsets; Ptr Int endOffsets;
        IntArg beginBit; IntArg endBit; Stream stream ]) /\
  (map arg_value ∘ cub_args) <$> head_call keys =
    Some (reorder [0; 1; 2; 3; 4; 7; 5; 6; 8; 9; 10]%nat
      [ tempStorage; tempStorageSize; source; target;
        numElements; beginOffsets; endOffsets; numSegments;
        beginBit; endBit; stream ]) /\
  head_call pairs =
    Some (CubCall "cub::DeviceSegmentedRadixSort" (cubName +:+ prefix)
      [ Ptr Void tempStorage; SizeRef tempStorageSize;
        Ptr (Elem cType) source; Ptr (Elem cType) target;
        Ptr (Elem Index) valuesSource; Ptr (Elem Index) valuesTarget;
        IntArg numElements; IntArg numSegments;
        Ptr Int beginOffsets; Ptr Int endOffsets;
        IntArg beginBit; IntArg endBit; Stream stream ]) /\
  (map arg_value ∘ cub_args) <$> head_call pairs =
    Some (reorder [0; 1; 2; 3; 4; 5; 6; 9; 7; 8; 10; 11; 12]%nat
      [ tempStorage; tempStorageSize; source; target;
        valuesSource; valuesTarget;
        numElements; beginOffsets; endOffsets; numSegments;
        beginBit; endBit; stream ]).
Proof.
  intros Hn Hs Hb He keys pairs. subst keys pairs.
  unfold segmented_sort_keys, segmented_sort_pairs. cbn.
  rewrite !to_int_id by done. done.
Qed.

(** C9. A scan export takes its count as [uint32_t] and passes CUB
    [(int)numElements]: a count below [2^31] arrives as it is, a count from
    [2^31] up to [2^32 - 1] arrives as the negative number
    [numElements - 2^32].  The four sort kinds take the count as [int32_t]
    and pass it on with its value. *)
Theorem scan_count_is_cast_to_int :
  let num_items (i : nat) (p : status) :=
    head_call p ≫= fun c => cub_args c !! i in
  let a_scan :=
    scan variant typeName cType
      tempStorage tempStorageSize source target numElements stream in
  (0 <= numElements < 2 ^ 31 ->
     num_items 4%nat a_scan = Some (IntArg numElements)) /\
  (2 ^ 31 <= numElements < 2 ^ 32 ->
     num_items 4%nat a_scan = Some (IntArg (numElements - 2 ^ 32)) /\
     numElements - 2 ^ 32 < 0) /\
  (CInt.is_int32 numElements ->
     num_items 4%nat
       (sort_keys prefix variant cubName typeName cType
          tempStorage tempStorageSize source target
          numElements beginBit endBit stream)
       = Some (IntArg numElements) /\
     num_items 6%nat
       (sort_pairs prefix variant cubName typeName cType
          tempStorage tempStorageSize source target valuesSource valuesTarget
          numElements beginBit endBit stream)
       = Some (IntArg numElements) /\
     num_items 4%nat
       (segmented_sort_keys prefix variant cubName typeName cType
          tempStorage tempStorageSize source target
          numElements beginOffsets endOffsets numSegments
          beginBit endBit stream)
       = Some (IntArg numElements) /\
     num_items 6%nat
       (segmented_sort_pairs prefix variant cubName typeName cType
          tempStorage tempStorageSize source target valuesSource valuesTarget
          numElements beginOffsets endOffsets numSegments
          beginBit endBit stream)
       = Some (IntArg numElements)).
Proof.
  intros num_items a_scan. subst num_items a_scan.
  unfold scan, sort_keys, sort_pairs, segmented_sort_keys,
    segmented_sort_pairs. cbn.
  split; [| split].
  - intros Hn. rewrite to_int_id; [done | unfold CInt.is_int32; lia].
  - intros Hn. rewrite to_int_wrap by done. split; [done | lia].
  - intros Hn. by rewrite !to_int_id.
Qed.

(** C8. No export checks what it is given.  For all actuals, null pointers
    and counts of any sign among them, an export of the five kinds is the one
    call into CUB, with the scratch pointer first and the scratch-size cell
    second, and its status is CUB's; with every pointer null the scan export
    still makes its call, and passes null in all four places.  For every
    module and entry handle, null among them, [ILGPU_PreparePTXModule] makes
    its one call into LLVM on that module with the predicate of that
    handle. *)
Theorem exports_forward_unchecked (module entry : Z) (ftz fm : LLVM.LLVMBool) :
  let unchecked (p : status) :=
    exists c rest,
      returns_status_of p c /\
      cub_args c = Ptr Void tempStorage :: SizeRef tempStorageSize :: rest in
  unchecked (sort_keys prefix variant cubName typeName cType
               tempStorage tempStorageSize source target
               numElements beginBit endBit stream) /\
  unchecked (sort_pairs prefix variant cubName typeName cType
               tempStorage tempStorageSize source target
               valuesSource valuesTarget
               numElements beginBit endBit stream) /\
  unchecked (segmented_sort_keys prefix variant cubName typeName cType
               tempStorage tempStorageSize source target
               numElements beginOffsets endOffsets numSegments
               beginBit endBit stream) /\
  unchecked (segmented_sort_pairs prefix variant cubName typeName cType
               tempStorage tempStorageSize source target
               valuesSource valuesTarget
               numElements beginOffsets endOffsets numSegments
               beginBit endBit stream) /\
  unchecked (scan variant typeName cType
               tempStorage tempStorageSize source target numElements stream) /\
  scan variant typeName cType null null null null numElements stream =
    call (CubCall "cub::DeviceScan" (variant +:+ "Sum")
            [ Ptr Void null; SizeRef null;
              Ptr (Elem cType) null; Ptr (Elem cType) null;
              IntArg (CInt.to_int numElements); Stream stream ]) /\
  head_call (LLVM.ILGPU_PreparePTXModule module entry ftz fm) =
    Some (LLVM.PassManager_run
            (LLVM.mkPM [ LLVM.createInternalizePass (LLVM.is_entry_point entry);
                         LLVM.createGlobalDCEPass;
                         LLVM.FPass (LLVM.CreateNVVMReflectPass ftz fm) ])
            module) /\
  head_call (LLVM.ILGPU_PreparePTXModule null null ftz fm) =
    Some (LLVM.PassManager_run
            (LLVM.mkPM [ LLVM.createInternalizePass (LLVM.is_entry_point null);
                         LLVM.createGlobalDCEPass;
                         LLVM.FPass (LLVM.CreateNVVMReflectPass ftz fm) ])
            null).
Proof.
  intros unchecked. subst unchecked.
  repeat split; try done;
    do 2 eexists; (split; [apply returns_status_of_call | done]).
Qed.
End ForwardedArguments.

(** A segmented sort of 6 [uint32_t] keys at bits 0 to 32 in 2 segments:
    the segment count 2 arrives in the sixth place, before the offsets. *)
Lemma segmented_sort_argument_order_witness :
  Ext.head_call
    (Lightning.segmented_sort_keys "Descending" EmptyString "SortKeys" "UInt32"
       Lightning.uint32_t 4096 8192 12288 16384 6 20480 24576 2 0 32 0)
  = Some (Lightning.CubCall "cub::DeviceSegmentedRadixSort"
            "SortKeysDescending"
            [ Lightning.Ptr Lightning.Void 4096; Lightning.SizeRef 8192;
              Lightning.Ptr (Lightning.Elem Lightning.uint32_t) 12288;
              Lightning.Ptr (Lightning.Elem Lightning.uint32_t) 16384;
              Lightning.IntArg 6; Lightning.IntArg 2;
              Lightning.Ptr Lightning.Int 20480;
              Lightning.Ptr Lightning.Int 24576;
              Lightning.IntArg 0; Lightning.IntArg 32; Lightning.Stream 0 ]).
Proof.
  apply (segmented_sort_argument_order "Descending" EmptyString "SortKeys"
           "UInt32" Lightning.uint32_t 4096 8192 12288 16384 0 0
           6 20480 24576 2 0 32 0);
    unfold CInt.is_int32; lia.
Defined.

(** An inclusive scan of [2^32 - 1] elements: CUB is given the count -1. *)
Lemma scan_count_is_cast_to_int_witness :
  Ext.head_call
    (Lightning.scan "Inclusive" "Int32" Lightning.int32_t
       4096 8192 12288 16384 4294967295 0)
    ≫= (fun c => Lightning.cub_args c !! 4%nat)
  = Some (Lightning.IntArg (4294967295 - 2 ^ 32)) /\
  4294967295 - 2 ^ 32 < 0.
Proof.
  apply (scan_count_is_cast_to_int EmptyString "Inclusive" EmptyString "Int32"
           Lightning.int32_t 4096 8192 12288 16384 0 0
           4294967295 0 0 0 0 0 0).
  lia.
Defined.

(** * Further properties of the two bridges *)

(** ** Definitions the statements below use *)

Module Derived.
Import Ext LLVM Lightning.

(** The mapping a reflect pass was constructed with. *)
Definition pass_mapping (P : FunctionPass) : StringMap Z :=
  match P with createNVVMReflectPass m => m end.

(** The global values of a heap that an internalize predicate keeps. *)
Definition preserved {Body} (MustPreserveGV : Z -> bool)
    (h : gmap Z (GlobalValue Body)) : gmap Z (GlobalValue Body) :=
  filter (fun kv => MustPreserveGV kv.1 = true) h.

(** Both variant tables expanded with one specialization, signed first. *)
Definition both_tables {X} (SPECIALIZATION : string -> ctype -> list X)
    : list X :=
  SignedVariants SPECIALIZATION ++ UnsignedVariants SPECIALIZATION.

(** The two ordering prefixes of [MAKE_RADIXSORT] and
    [MAKE_SEGMENTED_RADIXSORT], and the type names of the two tables. *)
Definition ordering_prefixes : list string := [EmptyString; "Descending"%string].

Definition type_names : list string :=
  both_tables (fun typeName _ => [typeName]).


(** The argument in place [i] of the call a program starts with. *)
Definition argument (i : nat) (p : status) : option arg :=
  head_call p ≫= fun c => cub_args c !! i.

End Derived.

(** ** The reflect pass and its flags *)

Section ReflectFlags.
Import Ext LLVM Derived.

(** X3. The pass [CreateNVVMReflectPass] builds depends on each flag only
    through whether it is zero, and on that it does depend: two pairs of
    flags give the same pass exactly when they agree, flag by flag, on being
    zero. *)
Theorem reflect_pass_depends_on_flag_truth (ftz fm ftz' fm' : LLVMBool) :
  CreateNVVMReflectPass ftz fm = CreateNVVMReflectPass ftz' fm' <->
  ((ftz = 0 <-> ftz' = 0) /\ (fm = 0 <-> fm' = 0)).
Proof.
  rewrite !CreateNVVMReflectPass_mapping. split.
  - intros [= Heq]. split.
    + pose proof (f_equal (fun m => m !! "__CUDA_FTZ"%string) Heq) as H.
      simpl in H. rewrite !spec_mapping_lookup in H. simpl in H.
      destruct (decide (ftz = 0)), (decide (ftz' = 0)); naive_solver.
    + pose proof (f_equal (fun m => m !! "__CUDA_PREC_DIV"%string) Heq) as H.
      simpl in H. rewrite !spec_mapping_lookup in H. simpl in H.
      destruct (decide (fm = 0)), (decide (fm' = 0)); naive_solver.
  - intros [Hftz Hfm]. f_equal. unfold spec_mapping, spec_entries.
    destruct (decide (ftz = 0)), (decide (ftz' = 0)),
      (decide (fm = 0)), (decide (fm' = 0)); tauto.
Qed.

(** X4. The two flags act independently: the mapping built for a pair of
    flags is the union of the mapping built for the first flag alone and the
    mapping built for the second flag alone, and these two never share a
    key. *)
Theorem reflect_flags_independent (ftz fm : LLVMBool) :
  pass_mapping (CreateNVVMReflectPass ftz fm) =
    pass_mapping (CreateNVVMReflectPass ftz 0) ∪
    pass_mapping (CreateNVVMReflectPass 0 fm) /\
  pass_mapping (CreateNVVMReflectPass ftz 0) ##ₘ
    pass_mapping (CreateNVVMReflectPass 0 fm).
Proof.
  rewrite !CreateNVVMReflectPass_mapping. simpl.
  unfold spec_mapping, spec_entries.
  destruct (decide (ftz = 0)) as [Hftz | Hftz];
    destruct (decide (fm = 0)) as [Hfm | Hfm]; simpl; split; try done;
    first [ apply map_disjoint_empty_l | apply map_disjoint_empty_r | idtac ].
  apply map_disjoint_spec. intros k x y Hx Hy.
  apply lookup_insert_Some in Hx as [[<- _] | [_ Hx]]; [| done].
  by rewrite !lookup_insert_ne in Hy.
Qed.
End ReflectFlags.

(** ** Running on a module *)

Section ModuleRuns.
Import Ext LLVM Derived.
Context {Body : Type}.
Variable runOnFunction : FunctionPass -> Body -> Body.
Variable runOnModule :
  Pass -> LLVMModuleRef -> gmap Z (GlobalValue Body) -> gmap Z (GlobalValue Body).
Variable changed : gmap Z (GlobalValue Body) -> gmap Z (GlobalValue Body) -> bool.

(** X1. [ILGPU_RunNVVMReflectPass] makes one call into LLVM: the
    module-level pass manager, holding the reflect pass of the two flags and
    no other pass, run on the module.  The pass is run also when both flags
    are zero, then with the empty mapping.  The module that results is the
    one that single pass produces. *)
Theorem run_on_module_single_reflect_pass
    (module : Z) (ftz fm : LLVMBool) (h : gmap Z (GlobalValue Body)) :
  let p := ILGPU_RunNVVMReflectPass module ftz fm in
  let reflect := FPass (createNVVMReflectPass (spec_mapping ftz fm)) in
  calls (llvm runOnFunction runOnModule changed) p h =
    [PassManager_run (mkPM [reflect]) module] /\
  interp (llvm runOnFunction runOnModule changed) p h =
    (tt, runOnModule reflect module h) /\
  calls (llvm runOnFunction runOnModule changed)
    (ILGPU_RunNVVMReflectPass module 0 0) h =
    [PassManager_run (mkPM [FPass (createNVVMReflectPass ∅)]) module].
Proof.
  intros p reflect. subst p reflect.
  unfold ILGPU_RunNVVMReflectPass.
  rewrite !calls_run_void, interp_run_void, !CreateNVVMReflectPass_mapping.
  done.
Qed.

(** X2. Preparing a module is internalizing it around the entry point,
    eliminating its dead globals, and then doing what
    [ILGPU_RunNVVMReflectPass] does with the same flags: the two end in the
    same module. *)
Theorem prepare_is_internalize_dce_then_reflect
    (module entry : Z) (ftz fm : LLVMBool) (h : gmap Z (GlobalValue Body)) :
  interp (llvm runOnFunction runOnModule changed)
    (ILGPU_PreparePTXModule module entry ftz fm) h =
  interp (llvm runOnFunction runOnModule changed)
    (ILGPU_RunNVVMReflectPass module ftz fm)
    (runOnModule createGlobalDCEPass module
       (runOnModule (createInternalizePass (is_entry_point entry)) module h)).
Proof.
  unfold ILGPU_PreparePTXModule, ILGPU_RunNVVMReflectPass.
  by rewrite !interp_run_void.
Qed.

(** X5. Of the global values of a heap, the predicate given to the
    internalize pass keeps the one at the entry-point handle and no other;
    when no global value lives at the handle (a null handle, a handle of
    another module), it keeps none. *)
Theorem internalize_keeps_only_entry
    (entry : Z) (h : gmap Z (GlobalValue Body)) :
  preserved (is_entry_point entry) h =
  match h !! entry with
  | Some g => {[ entry := g ]}
  | None => ∅
  end.
Proof.
  unfold preserved. apply map_eq; intros a.
  rewrite map_lookup_filter. unfold is_entry_point.
  destruct (decide (a = entry)) as [-> | Hne].
  - destruct (h !! entry) as [g |] eqn:Hg; simpl.
    + rewrite lookup_singleton_eq, option_guard_True; [done |].
      by apply bool_decide_eq_true.
    + by rewrite lookup_empty.
  - transitivity (@None (GlobalValue Body)).
    + destruct (h !! a) as [g |]; simpl; [| done].
      rewrite option_guard_False; [done |].
      simpl. rewrite bool_decide_eq_false_2 by done. done.
    + destruct (h !! entry); by rewrite ?lookup_singleton_ne, ?lookup_empty.
Qed.
End ModuleRuns.

(** ** The names of the exports *)

Section ExportNames.
Import Ext Lightning Derived.

Lemma length_append (s t : string) :
  String.length (s +:+ t) = (String.length s + String.length t)%nat.
Proof.
  induction s as [| a s IH]; [done |].
  change (S (String.length (s +:+ t)) = S (String.length s + String.length t)).
  by rewrite IH.
Qed.

Lemma append_inj_r (s s' t : string) : s +:+ t = s' +:+ t -> s = s'.
Proof.
  revert s'. induction s as [| a s IH]; intros [| a' s'] H; [done | | |].
  - apply (f_equal String.length) in H. rewrite !length_append in H.
    simpl in H. lia.
  - apply (f_equal String.length) in H. rewrite !length_append in H.
    simpl in H. lia.
  - change (String a (s +:+ t) = String a' (s' +:+ t)) in H.
    injection H as -> H. f_equal. by apply IH.
Qed.

Lemma type_name_length (t : string) :
  t ∈ type_names -> (4 <= String.length t <= 6)%nat.
Proof.
  unfold type_names, both_tables, SignedVariants, UnsignedVariants; simpl.
  rewrite !elem_of_cons, elem_of_nil.
  intros H; repeat (destruct H as [-> | H]; [simpl; lia |]); done.
Qed.

(** What lies between an ordering prefix and the rest of a name decides
    nothing: the prefix and the rest can be read back. *)
Lemma prefixed_inj (v w w' p p' : string) :
  p ∈ ordering_prefixes -> p' ∈ ordering_prefixes ->
  (String.length w < String.length w' + 10)%nat ->
  (String.length w' < String.length w + 10)%nat ->
  p +:+ v +:+ w = p' +:+ v +:+ w' -> p = p' /\ w = w'.
Proof.
  unfold ordering_prefixes. rewrite !elem_of_cons, !elem_of_nil.
  intros [-> | [-> | []]] [-> | [-> | []]] Hw Hw' H.
  - split; [done |].
    by apply (inj (String.append v)), (inj (String.append EmptyString)).
  - apply (f_equal String.length) in H. rewrite !length_append in H.
    simpl in H. lia.
  - apply (f_equal String.length) in H. rewrite !length_append in H.
    simpl in H. lia.
  - split; [done |].
    by apply (inj (String.append v)), (inj (String.append "Descending")).
Qed.

(** The sixteen (prefix, type name) pairs of one expansion of a sort
    specialization over both tables. *)
Lemma pasted_names_NoDup (pre v mid post : string) :
  NoDup ((fun '(p, t) => pre +:+ p +:+ v +:+ mid +:+ t +:+ post) <$>
           (t ← type_names; [(EmptyString, t); ("Descending"%string, t)])).
Proof.
  apply NoDup_fmap_2_strong.
  - intros [p t] [p' t'] Hx Hy H.
    apply list_elem_of_bind in Hx as (t0 & Hx & Ht0).
    apply list_elem_of_bind in Hy as (t0' & Hy & Ht0').
    cbv beta in Hx, Hy.
    assert (p ∈ ordering_prefixes /\ t = t0) as [Hp ->].
    { unfold ordering_prefixes.
      rewrite !elem_of_cons, elem_of_nil in Hx. rewrite !elem_of_cons.
      destruct Hx as [[= -> ->] | [[= -> ->] | []]]; tauto. }
    assert (p' ∈ ordering_prefixes /\ t' = t0') as [Hp' ->].
    { unfold ordering_prefixes.
      rewrite !elem_of_cons, elem_of_nil in Hy. rewrite !elem_of_cons.
      destruct Hy as [[= -> ->] | [[= -> ->] | []]]; tauto. }
    apply (inj (String.append pre)) in H.
    pose proof (type_name_length _ Ht0) as Hl.
    pose proof (type_name_length _ Ht0') as Hl'.
    apply prefixed_inj in H as [-> H]; [| done | done | |];
      rewrite ?length_append; [| lia | lia].
    apply (inj (String.append mid)), append_inj_r in H. by subst.
  - unfold type_names, both_tables, SignedVariants, UnsignedVariants; simpl.
    apply (bool_decide_unpack _). by vm_compute.
Qed.

(** X6. The exports one specialization generates over the two variant
    tables have pairwise different names, whatever the variant; this holds
    for each of the four sort kinds (sixteen exports each: eight element
    types, ascending and descending) and for the eight scan exports of one
    variant.  An exported name thus stands for one ordering and one element
    type. *)
Theorem export_names_distinct (variant cubName : string) :
  NoDup (exp_name <$>
           both_tables (RadixSort.MAKE_RADIXSORT variant cubName)) /\
  NoDup (exp_name <$>
           both_tables (RadixSortPairs.MAKE_RADIXSORT variant cubName)) /\
  NoDup (exp_name <$>
           both_tables
             (SegmentedRadixSort.MAKE_SEGMENTED_RADIXSORT variant cubName)) /\
  NoDup (exp_name <$>
           both_tables
             (SegmentedRadixSortPairs.MAKE_SEGMENTED_RADIXSORT
                variant cubName)) /\
  NoDup (exp_name <$>
           both_tables (fun typeName cType =>
                          [Scan.MAKE_SCAN variant typeName cType])) /\
  length (both_tables (RadixSort.MAKE_RADIXSORT variant cubName)) = 16%nat.
Proof.
  split; [| split; [| split; [| split; [| split]]]].
  - exact (pasted_names_NoDup "Cuda" variant "RadixSort" EmptyString).
  - exact (pasted_names_NoDup "Cuda" variant "RadixSort" "IndexPairs").
  - exact (pasted_names_NoDup "CudaSegmented" variant "RadixSort" EmptyString).
  - exact (pasted_names_NoDup "CudaSegmented" variant "RadixSort" "IndexPairs").
  - change (NoDup ((fun t => "Cuda" +:+ variant +:+ "Scan" +:+ t)
                     <$> type_names)).
    apply NoDup_fmap_2.
    + intros t t' H.
      by apply (inj (String.append "Scan")), (inj (String.append variant)),
        (inj (String.append "Cuda")).
    + unfold type_names, both_tables, SignedVariants, UnsignedVariants; simpl.
      apply (bool_decide_unpack _). by vm_compute.
  - done.
Qed.
End ExportNames.

(** ** Arguments of the sort and scan exports *)

Section PlainForwarding.
Import Ext Lightning Derived.
Variables prefix variant cubName typeName : string.
Variable cType : ctype.
Variables tempStorage tempStorageSize source target : Z.
Variables valuesSource valuesTarget : Z.
Variables numElements beginOffsets endOffsets numSegments : Z.
Variables beginBit endBit stream : Z.



(** X9. The conversion of the scan's count to [int] loses nothing: the
    count is the converted value modulo [2^32], the converted value is
    negative exactly from [2^31] on, and two scans of different counts hand
    CUB different counts. *)
Theorem scan_count_cast_keeps_bits (numElements' : Z) :
  0 <= numElements < 2 ^ 32 -> 0 <= numElements' < 2 ^ 32 ->
  let count n :=
    argument 4
      (scan variant typeName cType
         tempStorage tempStorageSize source target n stream) in
  count numElements = Some (IntArg (CInt.to_int numElements)) /\
  CInt.to_int numElements mod 2 ^ 32 = numElements /\
  (CInt.to_int numElements < 0 <-> 2 ^ 31 <= numElements) /\
  (count numElements = count numElements' -> numElements = numElements').
Proof.
  intros Hn Hn' count. subst count. unfold argument, scan. cbn.
  assert (forall n, 0 <= n < 2 ^ 32 -> CInt.to_int n mod 2 ^ 32 = n) as Hmod.
  { intros n Hr. unfold CInt.to_int.
    rewrite Zminus_mod_idemp_l.
    replace (n + 2 ^ 31 - 2 ^ 31) with n by lia. by apply Z.mod_small. }
  split; [done |]. split; [by apply Hmod |]. split.
  - destruct (decide (numElements < 2 ^ 31)) as [Hlt | Hge].
    + rewrite to_int_id by (unfold CInt.is_int32; lia). lia.
    + rewrite to_int_wrap by lia. lia.
  - intros [= Heq]. rewrite <- (Hmod numElements), <- (Hmod numElements') by done.
    by rewrite Heq.
Qed.
End PlainForwarding.


(** The counts [2^31] and [2^32 - 1]: handed over as [-2^31] and [-1]. *)
Lemma scan_count_cast_keeps_bits_witness :
  CInt.to_int 2147483648 mod 2 ^ 32 = 2147483648 /\
  (CInt.to_int 2147483648 < 0 <-> 2 ^ 31 <= 2147483648).
Proof.
  pose proof (scan_count_cast_keeps_bits "Exclusive" "Int64"
                Lightning.int64_t 4096 8192 12288 16384 2147483648 0
                4294967295 ltac:(lia) ltac:(lia)) as (_ & Hmod & Hneg & _).
  by split.
Defined.
